(** * pyads_common: error reporting, value decoding and the UDP exchange

    A shallow embedding of [pyads/pyads_common.py]:
    - [ADSError.__init__] and [ADSError.__str__] (the error class),
    - [type_is_string] and [get_value_from_ctype_data] (the value codec),
    - [send_raw_udp_message] (the one-shot datagram exchange).

    Python values that the functions only pass around are kept abstract
    enough to be passed around; everything the functions branch on
    (presence of an attribute, the metaclass of a type, the bytes handed to
    the UTF-8 decoder, the socket's timeout) is modelled explicitly. *)

From stdpp Require Import base strings gmap pretty list.
From Stdlib Require Import ZArith NArith Lia.
From Stdlib.Strings Require Import Byte.

Set Warnings "-register-all".

Local Open Scope Z_scope.

(** ** Outcomes of a Python call

    A call either returns a value or raises.  [Block] is the third way a
    call can end: it waits forever (a blocking [recvfrom] on a socket
    without a timeout when no datagram arrives). *)

Inductive exn : Type :=
  | KeyError
  | AttributeError
  | TypeError
  | UnicodeDecodeError
  | TimeoutError
  | OSError
  | ValueError.

Global Instance exn_eq_dec : EqDecision exn.
Proof. solve_decision. Defined.

Inductive result (A : Type) : Type :=
  | Return (a : A)
  | Raise (e : exn)
  | Block.
Arguments Return {A} a.
Arguments Raise {A} e.
Arguments Block {A}.

Definition bind {A B} (m : result A) (k : A -> result B) : result B :=
  match m with
  | Return a => k a
  | Raise e => Raise e
  | Block => Block
  end.

(** [try m except e: h] *)
Definition try_except {A} (m : result A) (e : exn) (h : result A) : result A :=
  match m with
  | Raise e' => if decide (e' = e) then h else Raise e'
  | _ => m
  end.

Declare Scope py_scope.
Delimit Scope py_scope with py.
Notation "x <- m ;; k" := (bind m (fun x => k))
  (at level 100, m at next level, right associativity) : py_scope.
Local Open Scope py_scope.

Definition returns {A} (m : result A) : Prop := exists a, m = Return a.

(** ** The error class *)

Module ADSError.

(** Values held by the attributes of an [ADSError] instance. *)
Inductive attr : Type :=
  | AInt (z : Z)
  | AStr (s : string).

(** [str(v)], as the replacement field [{}] of [str.format] renders it. *)
Definition str (v : attr) : string :=
  match v with
  | AInt z => pretty z
  | AStr s => s
  end.

(** An instance is its attribute dictionary.  The class and its base
    [Exception] define no [err_code] or [msg] attribute of their own, so an
    attribute that was never assigned is not found. *)
Definition getattr (self : gmap string attr) (name : string) : result attr :=
  match self !! name with
  | Some v => Return v
  | None => Raise AttributeError
  end.

Definition setattr (self : gmap string attr) (name : string) (v : attr)
  : gmap string attr :=
  <[name := v]> self.

(** [a + b] on attribute values: defined on two strings. *)
Definition add (a b : attr) : result attr :=
  match a, b with
  | AStr s, AStr t => Return (AStr (s +:+ t))
  | AInt x, AInt y => Return (AInt (x + y))
  | _, _ => Raise TypeError
  end.

Section WithTable.

(** [errorcodes.ERROR_CODES]: the table of the protocol's status codes,
    defined outside this file. *)
Variable ERROR_CODES : gmap Z string.

(** [ERROR_CODES[k]] *)
Definition getitem (k : attr) : result attr :=
  match k with
  | AInt z =>
      match ERROR_CODES !! z with
      | Some d => Return (AStr d)
      | None => Raise KeyError
      end
  | AStr _ => Raise KeyError
  end.

Definition __init__ (self : gmap string attr)
    (err_code : option Z) (text : option string)
  : result (gmap string attr) :=
  self <- match err_code with
          | Some c =>
              let self := setattr self "err_code" (AInt c) in
              try_except
                (k <- getattr self "err_code" ;;
                 d <- getitem k ;;
                 c' <- getattr self "err_code" ;;
                 Return (setattr self "msg"
                           (AStr (str d +:+ " (" +:+ str c' +:+ "). "))))
                KeyError
                (c' <- getattr self "err_code" ;;
                 Return (setattr self "msg"
                           (AStr ("Unknown Error (" +:+ str c' +:+ "). "))))
          | None => Return (setattr self "msg" (AStr ""))
          end ;;
  match text with
  | Some t =>
      m <- getattr self "msg" ;;
      m' <- add m (AStr t) ;;
      Return (setattr self "msg" m')
  | None => Return self
  end.

(** [ADSError(err_code, text)]: a new instance, initialised. *)
Definition new (err_code : option Z) (text : option string)
  : result (gmap string attr) :=
  __init__ ∅ err_code text.

Definition __str__ (self : gmap string attr) : result string :=
  m <- getattr self "msg" ;;
  match m with
  | AStr s => Return ("ADSError: " +:+ s)
  | AInt _ => Raise TypeError
  end.

End WithTable.

End ADSError.

(** ** UTF-8, as [bytes.decode("utf-8")] reads it

    A Python [str] is a sequence of code points.  The decoder is strict: it
    accepts exactly the well-formed byte sequences of the Unicode standard
    (shortest form only, no surrogates, nothing above U+10FFFF) and fails on
    anything else. *)

Module Utf8.

Local Open Scope N_scope.

Definition in_range (lo hi : N) (b : byte) : bool :=
  (lo <=? Byte.to_N b) && (Byte.to_N b <=? hi).

(** Payload bits of a continuation byte [10xxxxxx]. *)
Definition low6 (b : byte) : N := N.land (Byte.to_N b) 0x3F.

Definition join2 (b0 b1 : byte) : N :=
  N.lor (N.shiftl (N.land (Byte.to_N b0) 0x1F) 6) (low6 b1).

Definition join3 (b0 b1 b2 : byte) : N :=
  N.lor (N.shiftl (N.land (Byte.to_N b0) 0x0F) 12)
        (N.lor (N.shiftl (low6 b1) 6) (low6 b2)).

Definition join4 (b0 b1 b2 b3 : byte) : N :=
  N.lor (N.shiftl (N.land (Byte.to_N b0) 0x07) 18)
        (N.lor (N.shiftl (low6 b1) 12)
               (N.lor (N.shiftl (low6 b2) 6) (low6 b3))).

(** Range allowed for the second byte, given the first. *)
Definition second_ok (b0 b1 : byte) : bool :=
  let x := Byte.to_N b0 in
  if x =? 0xE0 then in_range 0xA0 0xBF b1
  else if x =? 0xED then in_range 0x80 0x9F b1
  else if x =? 0xF0 then in_range 0x90 0xBF b1
  else if x =? 0xF4 then in_range 0x80 0x8F b1
  else in_range 0x80 0xBF b1.

Fixpoint decode (bs : list byte) : option (list N) :=
  match bs with
  | [] => Some []
  | b0 :: r0 =>
      if in_range 0x00 0x7F b0 then
        cons (Byte.to_N b0) <$> decode r0
      else if in_range 0xC2 0xDF b0 then
        match r0 with
        | b1 :: r1 =>
            if second_ok b0 b1 then cons (join2 b0 b1) <$> decode r1
            else None
        | _ => None
        end
      else if in_range 0xE0 0xEF b0 then
        match r0 with
        | b1 :: b2 :: r2 =>
            if second_ok b0 b1 && in_range 0x80 0xBF b2
            then cons (join3 b0 b1 b2) <$> decode r2
            else None
        | _ => None
        end
      else if in_range 0xF0 0xF4 b0 then
        match r0 with
        | b1 :: b2 :: b3 :: r3 =>
            if second_ok b0 b1 && in_range 0x80 0xBF b2
               && in_range 0x80 0xBF b3
            then cons (join4 b0 b1 b2 b3) <$> decode r3
            else None
        | _ => None
        end
      else None
  end.

End Utf8.

(** ** ctypes: types and instances *)

(** The simple types, named as in [ctypes]: the integer types, the floating
    types, and the three whose values are not numbers of those kinds.  The
    pointer types ([c_char_p] and the like) are not modelled. *)
Inductive int_type : Type :=
  | c_int8 | c_uint8 | c_int16 | c_uint16
  | c_int32 | c_uint32 | c_int64 | c_uint64.

Inductive float_type : Type :=
  | c_float | c_double.

Inductive simple : Type :=
  | c_char
  | c_wchar
  | c_bool
  | Int (k : int_type)
  | Float (k : float_type).

(** A ctypes type (a Python class).  Its metaclass decides what it is:
    [c_char * 5] is [CArray (CSimple c_char) 5]; a [Structure] subclass is
    known by its name.  Classes compare by identity, and ctypes hands out one
    class per element type and length, so equality here is equality there. *)
Inductive ctype : Type :=
  | CSimple (s : simple)
  | CArray (_type_ : ctype) (_length_ : nat)
  | CStruct (name : string).

Global Instance int_type_eq_dec : EqDecision int_type.
Proof. solve_decision. Defined.
Global Instance float_type_eq_dec : EqDecision float_type.
Proof. solve_decision. Defined.
Global Instance simple_eq_dec : EqDecision simple.
Proof. solve_decision. Defined.
Global Instance ctype_eq_dec : EqDecision ctype.
Proof. solve_decision. Defined.

(** [type(t).__name__] *)
Definition metaclass_name (t : ctype) : string :=
  match t with
  | CSimple _ => "PyCSimpleType"
  | CArray _ _ => "PyCArrayType"
  | CStruct _ => "PyCStructType"
  end.

(** Modelled from the spec: [constants.PLCTYPE_STRING], which is not part of
    this file; the spec calls it the single-character string descriptor, a
    string being an array of it. *)
Definition PLCTYPE_STRING : ctype := CSimple c_char.

(** Python values without identity: what [.value] and indexing hand out. *)
Inductive native : Type :=
  | NBool (b : bool)
  | NInt (z : Z)
  | NFloat (bits : Z)           (* a float, kept as its bit pattern *)
  | NBytes (bs : list byte)
  | NStr (s : list N).          (* a str: its code points *)

(** What reading an attribute gives: a value, or an exception. *)
Inductive outcome (A : Type) : Type :=
  | Got (a : A)
  | Fails (e : exn).
Arguments Got {A} a.
Arguments Fails {A} e.

(** An instance of a ctypes type, and any Python object the functions may be
    handed.

    A [c_wchar] holds one [wchar_t] unit, 4 bytes wide (as on Linux), which
    need not be a code point: a buffer made from raw bytes can hold any
    unit.

    A structure is known by its class name and by what reading each of its
    data attributes gives: its fields, the fields of its anonymous members,
    and what else its class defines.  A name that is not listed is not an
    attribute of the instance. *)
Inductive cdata : Type :=
  | VChar (b : byte)
  | VWChar (c : N)
  | VBool (b : bool)
  | VInt (t : int_type) (z : Z)
  | VFloat (t : float_type) (bits : Z)
  | VArray (elem : ctype) (items : list cdata)
  | VStruct (name : string) (attrs : list (string * outcome pyval))
with pyval : Type :=
  | PNone
  | PNative (n : native)
  | PList (l : list pyval)
  | PObj (d : cdata).

(** [type(d)] *)
Definition type_of (d : cdata) : ctype :=
  match d with
  | VChar _ => CSimple c_char
  | VWChar _ => CSimple c_wchar
  | VBool _ => CSimple c_bool
  | VInt t _ => CSimple (Int t)
  | VFloat t _ => CSimple (Float t)
  | VArray elem items => CArray elem (length items)
  | VStruct name _ => CStruct name
  end.

(** The last code point: a [str] holds nothing above it. *)
Definition MAX_UNICODE : N := 0x10FFFF.

(** What indexing an array hands out: the Python value for an item of a
    simple type, the sub-object itself otherwise.  Reading a wide character
    makes a [str] of it, which fails with [ValueError] when the unit is
    above [MAX_UNICODE]. *)
Definition unbox (d : cdata) : result pyval :=
  match d with
  | VChar b => Return (PNative (NBytes [b]))
  | VWChar c =>
      if (c <=? MAX_UNICODE)%N then Return (PNative (NStr [c]))
      else Raise ValueError
  | VBool b => Return (PNative (NBool b))
  | VInt _ z => Return (PNative (NInt z))
  | VFloat _ x => Return (PNative (NFloat x))
  | VArray _ _ | VStruct _ _ => Return (PObj d)
  end.

(** Reading the items one after the other: the first that cannot be read
    ends it. *)
Fixpoint read_all (items : list cdata) : result (list pyval) :=
  match items with
  | [] => Return []
  | d :: rest =>
      v <- unbox d ;;
      vs <- read_all rest ;;
      Return (v :: vs)
  end.

Definition char_of (d : cdata) : option byte :=
  match d with VChar b => Some b | _ => None end.
Definition wchar_of (d : cdata) : option N :=
  match d with VWChar c => Some c | _ => None end.

(** The prefix before the first NUL. *)
Fixpoint until_nul {A} (is_nul : A -> bool) (l : list A) : list A :=
  match l with
  | [] => []
  | x :: r => if is_nul x then [] else x :: until_nul is_nul r
  end.

(** The [str] of the units before the first NUL: [ValueError] when one of
    them is above [MAX_UNICODE]. *)
Definition wide_string (units : list N) : result native :=
  let s := until_nul (fun c => N.eqb c 0) units in
  if forallb (fun c => (c <=? MAX_UNICODE)%N) s then Return (NStr s)
  else Raise ValueError.

(** [a.value] of an array: only the arrays of the two character types have
    it, and it is the characters before the first NUL. *)
Definition array_value (elem : ctype) (items : list cdata) : result native :=
  if decide (elem = CSimple c_char) then
    Return (NBytes (until_nul (fun b => N.eqb (Byte.to_N b) 0)
                      (omap char_of items)))
  else if decide (elem = CSimple c_wchar) then
    wide_string (omap wchar_of items)
  else Raise AttributeError.

(** The entry of a name in the attributes of a structure. *)
Fixpoint attribute (name : string) (attrs : list (string * outcome pyval))
  : option (outcome pyval) :=
  match attrs with
  | [] => None
  | (n, r) :: rest =>
      if String.eqb n name then Some r else attribute name rest
  end.

(** [d.name] on a ctypes instance, for the attribute names this file reads
    ([value], [decode]).  A name that is not found raises [AttributeError];
    a name that is found can still fail to be read. *)
Definition cdata_getattr (d : cdata) (name : string) : result pyval :=
  match d with
  | VChar _ | VWChar _ | VBool _ | VInt _ _ | VFloat _ _ =>
      if String.eqb name "value" then unbox d else Raise AttributeError
  | VArray elem items =>
      if String.eqb name "value" then
        v <- array_value elem items ;; Return (PNative v)
      else Raise AttributeError
  | VStruct _ attrs =>
      match attribute name attrs with
      | Some (Got v) => Return v
      | Some (Fails e) => Raise e
      | None => Raise AttributeError
      end
  end.

(** [o.name] for [name] one of [value], [decode]; [bytes.decode] is a method
    and is called through [call_decode] below. *)
Definition getattr (o : pyval) (name : string) : result pyval :=
  match o with
  | PObj d => cdata_getattr d name
  | _ => Raise AttributeError
  end.

(** [hasattr(o, name)]: the lookup is made; [AttributeError] means no, any
    other exception goes through. *)
Definition hasattr (o : pyval) (name : string) : result bool :=
  match getattr o name with
  | Return _ => Return true
  | Raise e => if decide (e = AttributeError) then Return false else Raise e
  | Block => Block
  end.

(** [v.decode("utf-8")] *)
Definition call_decode (v : pyval) : result pyval :=
  match v with
  | PNative (NBytes bs) =>
      match Utf8.decode bs with
      | Some s => Return (PNative (NStr s))
      | None => Raise UnicodeDecodeError
      end
  | _ =>
      (* no method: the lookup fails, or finds data, which cannot be called *)
      _ <- getattr v "decode" ;; Raise TypeError
  end.

(** [[i for i in o]] *)
Definition iterate (o : pyval) : result (list pyval) :=
  match o with
  | PList l => Return l
  | PNative (NBytes bs) =>
      Return ((fun b => PNative (NInt (Z.of_N (Byte.to_N b)))) <$> bs)
  | PNative (NStr s) => Return ((fun c => PNative (NStr [c])) <$> s)
  | PObj (VArray _ items) => read_all items
  | _ => Raise TypeError
  end.

(** ** The value codec *)

Definition type_is_string (plc_type : ctype) : bool :=
  if decide (plc_type = PLCTYPE_STRING) then true
  else if String.eqb (metaclass_name plc_type) "PyCArrayType" then
    match plc_type with
    | CArray _type_ _ => if decide (_type_ = PLCTYPE_STRING) then true else false
    | _ => false
    end
  else false.

Definition get_value_from_ctype_data (read_data : pyval) (plc_type : ctype)
  : result pyval :=
  match read_data with
  | PNone => Return PNone
  | _ =>
      if type_is_string plc_type then
        v <- getattr read_data "value" ;; call_decode v
      else if String.eqb (metaclass_name plc_type) "PyCArrayType" then
        l <- iterate read_data ;; Return (PList l)
      else
        has_value <- hasattr read_data "value" ;;
        if has_value : bool then getattr read_data "value"
        else Return read_data
  end.

(** ** Sockets

    The operating system and the network are a world that the call acts on:
    the table of open sockets, and the history of socket calls made so far.
    What the outside does in answer to a call (whether a call fails, whether
    a datagram arrives) is an oracle over that history, so a program that
    made the same call twice could be answered differently each time. *)

Module Udp.

(** (host, port) *)
Definition address : Type := string * Z.

Inductive family := AF_INET.
Inductive kind := SOCK_STREAM | SOCK_DGRAM.

(** What the kernel keeps for an open socket.  [sk_timeout = None] is
    blocking mode, the state of a new socket; [Some t] is a deadline of [t]
    seconds on each blocking operation. *)
Record sock : Type := {
  sk_family : family;
  sk_kind : kind;
  sk_bound : option address;
  sk_timeout : option Z
}.

Inductive event : Type :=
  | EvSocket (fd : nat) (f : family) (k : kind)
  | EvBind (fd : nat) (a : address)
  | EvSendto (fd : nat) (data : list byte) (a : address)
  | EvSettimeout (fd : nat) (t : option Z)
  | EvRecvfrom (fd : nat) (bufsize : nat) (deadline : option Z)
  | EvClose (fd : nat).

Record world : Type := {
  open : gmap nat sock;
  trace : list event
}.

(** What arrives while a [recvfrom] waits. *)
Inductive arrival : Type :=
  | Datagram (data : list byte) (sender : address)
  | Silence
  | Fault (e : exn).

(** The outside: for the history so far, does the next call fail, and what
    does the next receive see. *)
Record outside : Type := {
  on_socket : list event -> option exn;
  on_bind : list event -> option exn;
  on_sendto : list event -> option exn;
  on_recvfrom : list event -> arrival
}.

Definition io (A : Type) : Type := world -> result A * world.

Definition ret {A} (a : A) : io A := fun w => (Return a, w).

Definition seq {A B} (m : io A) (k : A -> io B) : io B :=
  fun w =>
    match m w with
    | (Return a, w') => k a w'
    | (Raise e, w') => (Raise e, w')
    | (Block, w') => (Block, w')
    end.

Definition log (e : event) (w : world) : world :=
  {| open := open w; trace := trace w ++ [e] |}.

Definition update (fd : nat) (s : sock) (w : world) : world :=
  {| open := <[fd := s]> (open w); trace := trace w |}.

Section WithOutside.

Variable out : outside.

(** [socket.socket(f, k)]: the new socket gets a descriptor that is not in
    use. *)
Definition socket (f : family) (k : kind) : io nat :=
  fun w =>
    match on_socket out (trace w) with
    | Some e => (Raise e, w)
    | None =>
        let fd := fresh (dom (open w)) in
        (Return fd,
         log (EvSocket fd f k)
           (update fd {| sk_family := f; sk_kind := k;
                         sk_bound := None; sk_timeout := None |} w))
    end.

(** [sock.bind(a)] *)
Definition sock_bind (fd : nat) (a : address) : io unit :=
  fun w =>
    match open w !! fd with
    | None => (Raise OSError, w)
    | Some s =>
        match on_bind out (trace w) with
        | Some e => (Raise e, w)
        | None =>
            (Return tt,
             log (EvBind fd a)
               (update fd {| sk_family := sk_family s; sk_kind := sk_kind s;
                             sk_bound := Some a;
                             sk_timeout := sk_timeout s |} w))
        end
    end.

(** [sock.sendto(data, a)] *)
Definition sock_sendto (fd : nat) (data : list byte) (a : address) : io unit :=
  fun w =>
    match open w !! fd with
    | None => (Raise OSError, w)
    | Some _ =>
        match on_sendto out (trace w) with
        | Some e => (Raise e, w)
        | None => (Return tt, log (EvSendto fd data a) w)
        end
    end.

(** [sock.settimeout(t)] *)
Definition sock_settimeout (fd : nat) (t : option Z) : io unit :=
  fun w =>
    match open w !! fd with
    | None => (Raise OSError, w)
    | Some s =>
        (Return tt,
         log (EvSettimeout fd t)
           (update fd {| sk_family := sk_family s; sk_kind := sk_kind s;
                         sk_bound := sk_bound s; sk_timeout := t |} w))
    end.

(** [sock.recvfrom(bufsize)]: one wait.  A datagram longer than
    [bufsize] is cut to it.  When nothing arrives the wait ends at the
    socket's deadline, and never if the socket has none. *)
Definition sock_recvfrom (fd : nat) (bufsize : nat)
  : io (list byte * address) :=
  fun w =>
    match open w !! fd with
    | None => (Raise OSError, w)
    | Some s =>
        let w' := log (EvRecvfrom fd bufsize (sk_timeout s)) w in
        match on_recvfrom out (trace w) with
        | Datagram data sender => (Return (take bufsize data, sender), w')
        | Fault e => (Raise e, w')
        | Silence =>
            match sk_timeout s with
            | Some _ => (Raise TimeoutError, w')
            | None => (Block, w')
            end
        end
    end.

(** [sock.close()] *)
Definition sock_close (fd : nat) : io unit :=
  fun w =>
    (Return tt,
     log (EvClose fd) {| open := delete fd (open w); trace := trace w |}).

(** [with closing(acquire) as sock: body]: the socket is closed when the
    body is left, by return or by exception; a body that never ends is
    never left. *)
Definition with_closing {A} (acquire : io nat) (body : nat -> io A) : io A :=
  fun w =>
    match acquire w with
    | (Return fd, w1) =>
        match body fd w1 with
        | (Block, w2) => (Block, w2)
        | (r, w2) => (r, snd (sock_close fd w2))
        end
    | (Raise e, w1) => (Raise e, w1)
    | (Block, w1) => (Block, w1)
    end.

(** [constants.PORT_REMOTE_UDP], defined outside this file. *)
Variable PORT_REMOTE_UDP : Z.

Definition send_raw_udp_message
    (ip_address : string) (message : list byte)
    (expected_return_length : nat)
  : io (list byte * address) :=
  with_closing (socket AF_INET SOCK_DGRAM) (fun sock =>
    seq (sock_bind sock (""%string, 0)) (fun _ =>
    seq (sock_sendto sock message (ip_address, PORT_REMOTE_UDP)) (fun _ =>
    seq (sock_settimeout sock (Some 5)) (fun _ =>
    sock_recvfrom sock expected_return_length)))).

End WithOutside.

(** The sockets that the call itself left open. *)
Definition leaked (before after : world) : gset nat :=
  dom (open after) ∖ dom (open before).

End Udp.

(** ** Vocabulary of the specification *)

(** The message the spec describes for a code: the description and the code,
    or the unknown-error phrase and the code. *)
Definition code_message (ERROR_CODES : gmap Z string) (c : Z) : string :=
  match ERROR_CODES !! c with
  | Some description => description +:+ " (" +:+ pretty c +:+ "). "
  | None => "Unknown Error (" +:+ pretty c +:+ "). "
  end.

(** The scalar numeric descriptors: every simple type but the two character
    types. *)
Definition numeric (s : simple) : bool :=
  match s with
  | c_char | c_wchar => false
  | _ => true
  end.

(** The descriptor denotes a fixed-size array. *)
Definition is_array (t : ctype) : bool :=
  match t with
  | CArray _ _ => true
  | _ => false
  end.

(** The buffer is an instance of the descriptor. *)
Definition conforms (b : pyval) (t : ctype) : Prop :=
  exists d, b = PObj d /\ type_of d = t.

(** The event is one of the calls made on socket [fd] between its creation
    and its release. *)
Definition on_fd (fd : nat) (e : Udp.event) : Prop :=
  match e with
  | Udp.EvBind fd' _ | Udp.EvSendto fd' _ _
  | Udp.EvSettimeout fd' _ | Udp.EvRecvfrom fd' _ _ => fd' = fd
  | Udp.EvSocket _ _ _ | Udp.EvClose _ => False
  end.

(** An outside where every local call succeeds and no datagram ever
    arrives. *)
Definition silent_host : Udp.outside :=
  {| Udp.on_socket := fun _ => None;
     Udp.on_bind := fun _ => None;
     Udp.on_sendto := fun _ => None;
     Udp.on_recvfrom := fun _ => Udp.Silence |}.

Definition no_sockets : Udp.world := {| Udp.open := ∅; Udp.trace := [] |}.

(** The world in which the body of the [with] block runs: that of the call,
    with the new socket under a descriptor that was not in use. *)
Definition acquired (w : Udp.world) : Udp.world :=
  Udp.log (Udp.EvSocket (fresh (dom (Udp.open w))) Udp.AF_INET Udp.SOCK_DGRAM)
    (Udp.update (fresh (dom (Udp.open w)))
       {| Udp.sk_family := Udp.AF_INET; Udp.sk_kind := Udp.SOCK_DGRAM;
          Udp.sk_bound := None; Udp.sk_timeout := None |} w).

(** What the body of the [with] block leaves behind: it ends by return or
    exception, the table of sockets is that of [w] and [fd], and the history
    has grown by calls on [fd]. *)
Definition body_post (w : Udp.world) (fd : nat)
    (r : result (list byte * Udp.address)) (w' : Udp.world) : Prop :=
  r <> Block
  /\ delete fd (Udp.open w') = Udp.open w
  /\ exists mid,
       Udp.trace w' = Udp.trace w ++ Udp.EvSocket fd Udp.AF_INET Udp.SOCK_DGRAM :: mid
       /\ Forall (on_fd fd) mid.

(** ** Buffers and callers used in the further properties *)

(** A character buffer [(c_char * n)] holding the bytes [raw]. *)
Definition char_buffer (raw : list byte) : cdata :=
  VArray (CSimple c_char) (VChar <$> raw).

(** A wide-character buffer [(c_wchar * n)] holding the code points [cs]. *)
Definition wchar_buffer (cs : list N) : cdata :=
  VArray (CSimple c_wchar) (VWChar <$> cs).

(** The descriptor is one of the simple types. *)
Definition is_simple (t : ctype) : bool :=
  match t with
  | CSimple _ => true
  | _ => false
  end.

(** The descriptor is a [Structure] subclass. *)
Definition is_struct (t : ctype) : bool :=
  match t with
  | CStruct _ => true
  | _ => false
  end.

(** The descriptor has no text in it: a numeric simple type, or an array
    whose elements are not one of the two character types. *)
Definition no_text (t : ctype) : bool :=
  match t with
  | CSimple s => numeric s
  | CArray e _ =>
      bool_decide (e <> CSimple c_char) && bool_decide (e <> CSimple c_wchar)
  | CStruct _ => false
  end.

(** The unit of a wide character is a code point; nothing is asked of other
    instances. *)
Definition code_unit_ok (d : cdata) : Prop :=
  match d with
  | VWChar c => (c <= MAX_UNICODE)%N
  | _ => True
  end.

(** Every wide character that reading the instance, or its items, makes a
    [str] of is a code point. *)
Definition readable (d : cdata) : Prop :=
  match d with
  | VArray _ items => Forall code_unit_ok items
  | _ => code_unit_ok d
  end.

(** [str(ADSError(err_code, text))] *)
Definition error_text (ERROR_CODES : gmap Z string)
    (err_code : option Z) (text : option string) : result string :=
  self <- ADSError.new ERROR_CODES err_code text ;;
  ADSError.__str__ self.

(** The calls the body of the [with] block makes on its socket, in order. *)
Definition body_calls (PORT_REMOTE_UDP : Z) (fd : nat)
    (ip_address : string) (message : list byte)
    (expected_return_length : nat) : list Udp.event :=
  [Udp.EvBind fd (""%string, 0);
   Udp.EvSendto fd message (ip_address, PORT_REMOTE_UDP);
   Udp.EvSettimeout fd (Some 5);
   Udp.EvRecvfrom fd expected_return_length (Some 5)].

(** A caller that makes one exchange per request, one after the other,
    whatever each of them ends with. *)
Fixpoint exchange_all (out : Udp.outside) (PORT_REMOTE_UDP : Z)
    (requests : list (string * list byte * nat)) (w : Udp.world) : Udp.world :=
  match requests with
  | [] => w
  | (ip_address, message, expected_return_length) :: rest =>
      exchange_all out PORT_REMOTE_UDP rest
        (snd (Udp.send_raw_udp_message out PORT_REMOTE_UDP
                ip_address message expected_return_length w))
  end.

(** An outside where every local call succeeds and the same datagram
    answers every receive. *)
Definition replying_host (data : list byte) (sender : Udp.address)
  : Udp.outside :=
  {| Udp.on_socket := fun _ => None;
     Udp.on_bind := fun _ => None;
     Udp.on_sendto := fun _ => None;
     Udp.on_recvfrom := fun _ => Udp.Datagram data sender |}.

(** An outside where the network is down: sockets can be made and bound,
    sending fails. *)
Definition unreachable_network : Udp.outside :=
  {| Udp.on_socket := fun _ => None;
     Udp.on_bind := fun _ => None;
     Udp.on_sendto := fun _ => Some OSError;
     Udp.on_recvfrom := fun _ => Udp.Silence |}.

(** An outside where no local port can be bound. *)
Definition no_free_port : Udp.outside :=
  {| Udp.on_socket := fun _ => None;
     Udp.on_bind := fun _ => Some OSError;
     Udp.on_sendto := fun _ => None;
     Udp.on_recvfrom := fun _ => Udp.Silence |}.

(** An outside where the receive itself fails. *)
Definition failing_receive : Udp.outside :=
  {| Udp.on_socket := fun _ => None;
     Udp.on_bind := fun _ => None;
     Udp.on_sendto := fun _ => None;
     Udp.on_recvfrom := fun _ => Udp.Fault OSError |}.


(** * Properties *)

(** ** The error class *)

Section ErrorReporter.

Variable ERROR_CODES : gmap Z string.

Import ADSError.

Lemma init_code_branch (c : Z) :
  try_except
    (k <- getattr (setattr ∅ "err_code" (AInt c)) "err_code" ;;
     d <- getitem ERROR_CODES k ;;
     c' <- getattr (setattr ∅ "err_code" (AInt c)) "err_code" ;;
     Return (setattr (setattr ∅ "err_code" (AInt c)) "msg"
               (AStr (str d +:+ " (" +:+ str c' +:+ "). "))))
    KeyError
    (c' <- getattr (setattr ∅ "err_code" (AInt c)) "err_code" ;;
     Return (setattr (setattr ∅ "err_code" (AInt c)) "msg"
               (AStr ("Unknown Error (" +:+ str c' +:+ "). "))))
  = Return (setattr (setattr ∅ "err_code" (AInt c)) "msg"
              (AStr (code_message ERROR_CODES c))).
Proof.
  unfold getattr, setattr, code_message, getitem.
  rewrite lookup_insert_eq. cbn.
  destruct (ERROR_CODES !! c) as [d|]; cbn; reflexivity.
Qed.

Lemma new_with_code (c : Z) (text : option string) :
  new ERROR_CODES (Some c) text =
  Return (<["msg" := AStr (match text with
                           | Some t => code_message ERROR_CODES c +:+ t
                           | None => code_message ERROR_CODES c
                           end)]>
            (<["err_code" := AInt c]> ∅)).
Proof.
  unfold new, __init__. rewrite init_code_branch. cbn.
  destruct text as [t|]; [|reflexivity].
  unfold getattr, setattr. rewrite lookup_insert_eq. cbn.
  by rewrite insert_insert_eq.
Qed.

Lemma new_without_code (text : option string) :
  new ERROR_CODES None text =
  Return (<["msg" := AStr (match text with Some t => t | None => "" end)]> ∅).
Proof.
  unfold new, __init__. cbn.
  destruct text as [t|]; [|reflexivity].
  unfold getattr, setattr. rewrite lookup_insert_eq. cbn.
  by rewrite insert_insert_eq.
Qed.

(** C2: the message of [ADSError(code, text)].  With a code, the message is
    the description from the table followed by the code in parentheses, or
    the unknown-error phrase when the table has no entry; a text is
    appended to it, and is the whole message when there is no code.
    [ADSError(None, "x")] has message ["x"] and [ADSError(None, None)] has
    the empty message. *)
Theorem makeError_message (code : option Z) (text : option string) :
  (exists self,
      new ERROR_CODES code text = Return self /\
      self !! "msg" =
        Some (AStr (match code, text with
                    | Some c, Some t => code_message ERROR_CODES c +:+ t
                    | Some c, None => code_message ERROR_CODES c
                    | None, Some t => t
                    | None, None => ""
                    end)))
  /\ (exists self, new ERROR_CODES None (Some "x") = Return self
                   /\ self !! "msg" = Some (AStr "x"))
  /\ (exists self, new ERROR_CODES None None = Return self
                   /\ self !! "msg" = Some (AStr "")).
Proof.
  split; [|split].
  - destruct code as [c|].
    + eexists; split; [apply new_with_code|].
      rewrite lookup_insert_eq. by destruct text.
    + eexists; split; [apply new_without_code|].
      rewrite lookup_insert_eq. by destruct text.
  - eexists; split; [apply new_without_code|]. by rewrite lookup_insert_eq.
  - eexists; split; [apply new_without_code|]. by rewrite lookup_insert_eq.
Qed.

(** C10: with a code, the instance has an attribute [err_code] holding it;
    without one, no attribute [err_code] exists and reading it raises
    [AttributeError] instead of giving [None]. *)
Theorem makeError_err_code (code : option Z) (text : option string) :
  exists self,
    new ERROR_CODES code text = Return self /\
    match code with
    | Some c => getattr self "err_code" = Return (AInt c)
    | None => self !! "err_code" = None
              /\ getattr self "err_code" = Raise AttributeError
    end.
Proof.
  destruct code as [c|].
  - eexists; split; [apply new_with_code|].
    unfold getattr. rewrite lookup_insert_ne by done.
    by rewrite lookup_insert_eq.
  - eexists; split; [apply new_without_code|].
    unfold getattr. rewrite lookup_insert_ne by done.
    by rewrite lookup_empty.
Qed.

End ErrorReporter.

(** The code message on a small table. *)
Example code_message_known :
  code_message (<[6 := "target port not found"%string]> ∅) 6
  = "target port not found (6). "%string.
Proof. reflexivity. Qed.

Example code_message_unknown :
  code_message (<[6 := "target port not found"%string]> ∅) (-3)
  = "Unknown Error (-3). "%string.
Proof. reflexivity. Qed.

(** ** The value codec *)

Section ValueCodec.

Import Byte.

Lemma is_array_metaclass (t : ctype) :
  String.eqb (metaclass_name t) "PyCArrayType" = is_array t.
Proof. by destruct t. Qed.

Lemma type_is_string_unfold (t : ctype) :
  type_is_string t =
  match t with
  | CSimple s => bool_decide (s = c_char)
  | CArray e _ => bool_decide (e = PLCTYPE_STRING)
  | CStruct _ => false
  end.
Proof.
  unfold type_is_string, PLCTYPE_STRING.
  destruct t as [s|e n|name]; cbn.
  - destruct (decide (CSimple s = CSimple c_char)) as [H|H].
    + injection H as ->. by rewrite bool_decide_eq_true_2.
    + rewrite bool_decide_eq_false_2; [done|]. by intros ->.
  - destruct (decide (CArray e n = CSimple c_char)); [done|].
    destruct (decide (e = CSimple c_char)).
    + by rewrite bool_decide_eq_true_2.
    + by rewrite bool_decide_eq_false_2.
  - by destruct (decide (CStruct name = CSimple c_char)).
Qed.

(** C3: [type_is_string] holds exactly of the single-character descriptor
    and of the arrays whose element descriptor is it; it fails on every
    scalar numeric descriptor and on every array of other elements. *)
Theorem type_is_string_exactly (t : ctype) :
  (type_is_string t = true <->
     t = PLCTYPE_STRING \/ exists n, t = CArray PLCTYPE_STRING n)
  /\ (forall s, t = CSimple s -> numeric s = true -> type_is_string t = false)
  /\ (forall e n, t = CArray e n -> e <> PLCTYPE_STRING ->
                  type_is_string t = false).
Proof.
  rewrite type_is_string_unfold. split; [|split].
  - destruct t as [s|e n|name].
    + rewrite bool_decide_eq_true. split.
      * intros ->. by left.
      * intros [H|[n H]]; [by injection H|discriminate].
    + rewrite bool_decide_eq_true. split.
      * intros ->. right. by exists n.
      * intros [H|[m H]]; [discriminate|]. by injection H.
    + split; [discriminate|]. intros [H|[n H]]; discriminate.
  - intros s -> Hs. apply bool_decide_eq_false_2. by intros ->.
  - intros e n -> He. by apply bool_decide_eq_false_2.
Qed.

Lemma type_is_string_witness :
  type_is_string (CArray (CSimple (Int c_int32)) 3) = false.
Proof.
  apply (type_is_string_exactly (CArray (CSimple (Int c_int32)) 3))
    with (e := CSimple (Int c_int32)) (n := 3%nat).
  - reflexivity.
  - discriminate.
Defined.

(** C6: a null buffer decodes to null, whatever the descriptor. *)
Theorem decode_null (t : ctype) :
  get_value_from_ctype_data PNone t = Return PNone.
Proof. reflexivity. Qed.

Lemma decode_dispatch (b : pyval) (t : ctype) :
  b <> PNone ->
  get_value_from_ctype_data b t =
  if type_is_string t then v <- getattr b "value" ;; call_decode v
  else if is_array t then l <- iterate b ;; Return (PList l)
  else has_value <- hasattr b "value" ;;
       if has_value : bool then getattr b "value" else Return b.
Proof.
  intros Hb. unfold get_value_from_ctype_data.
  rewrite is_array_metaclass. by destruct b.
Qed.

(** A wide-character buffer holding the unit 110000 (hex), one above the
    last code point, under its own descriptor, which is neither a string
    type nor an array: the buffer has a [value] accessor, and decoding
    raises [ValueError]. *)
Lemma decode_scalar_unreadable :
  conforms (PObj (VWChar 0x110000)) (CSimple c_wchar)
  /\ type_is_string (CSimple c_wchar) = false
  /\ is_array (CSimple c_wchar) = false
  /\ get_value_from_ctype_data (PObj (VWChar 0x110000)) (CSimple c_wchar)
     = Raise ValueError.
Proof.
  split; [|split; [|split]]; [|reflexivity..].
  eexists; split; reflexivity.
Qed.

(** C7, as the code has it: under a descriptor that is neither a string type
    nor an array type, a buffer whose [value] can be read decodes to that
    value, a buffer without a [value] accessor decodes to itself, and when
    reading [value] fails with another exception, decoding raises it. *)
Theorem decode_scalar_or_self (b : pyval) (t : ctype) :
  b <> PNone -> type_is_string t = false -> is_array t = false ->
  (forall v, getattr b "value" = Return v ->
             get_value_from_ctype_data b t = Return v)
  /\ (getattr b "value" = Raise AttributeError ->
      get_value_from_ctype_data b t = Return b)
  /\ (forall e, e <> AttributeError -> getattr b "value" = Raise e ->
                get_value_from_ctype_data b t = Raise e).
Proof.
  intros Hb Hs Ha. rewrite decode_dispatch, Hs, Ha by done.
  unfold hasattr. split; [|split].
  - intros v Hv. by rewrite Hv.
  - by intros ->.
  - intros e He ->. by rewrite decide_False.
Qed.

Lemma decode_scalar_or_self_witness :
  get_value_from_ctype_data (PObj (VInt c_int16 (-42))) (CSimple (Int c_int16))
    = Return (PNative (NInt (-42)))
  /\ get_value_from_ctype_data (PObj (VStruct "SAdsSymbolEntry" []))
       (CStruct "SAdsSymbolEntry")
     = Return (PObj (VStruct "SAdsSymbolEntry" [])).
Proof.
  split.
  - apply (decode_scalar_or_self (PObj (VInt c_int16 (-42)))
             (CSimple (Int c_int16)));
      [discriminate|reflexivity|reflexivity|reflexivity].
  - apply (decode_scalar_or_self (PObj (VStruct "SAdsSymbolEntry" []))
             (CStruct "SAdsSymbolEntry"));
      [discriminate|reflexivity|reflexivity|reflexivity].
Defined.

Lemma read_all_spec (items : list cdata) :
  (exists vs, read_all items = Return vs
              /\ Forall2 (fun d v => unbox d = Return v) items vs)
  \/ (read_all items = Raise ValueError
      /\ Exists (fun d => unbox d = Raise ValueError) items).
Proof.
  induction items as [|d items IH]; [left; by exists []|].
  cbn [read_all].
  assert (Hd : (exists v, unbox d = Return v) \/ unbox d = Raise ValueError).
  { destruct d; cbn; eauto. case_match; eauto. }
  destruct Hd as [[v Hv]|Hd].
  - rewrite Hv. cbn. destruct IH as [(vs & -> & Hvs)|(-> & Hex)].
    + left. exists (v :: vs). split; [done|]. by constructor.
    + right. split; [done|]. by apply Exists_cons_tl.
  - right. rewrite Hd. split; [done|]. by apply Exists_cons_hd.
Qed.

(** A wide-character array holding the units 61 and 110000 (hex) under its
    own descriptor, an array whose elements are not the character
    descriptor: decoding raises [ValueError]. *)
Lemma decode_array_unreadable :
  conforms (PObj (VArray (CSimple c_wchar) [VWChar 0x61; VWChar 0x110000]))
    (CArray (CSimple c_wchar) 2)
  /\ CSimple c_wchar <> PLCTYPE_STRING
  /\ get_value_from_ctype_data
       (PObj (VArray (CSimple c_wchar) [VWChar 0x61; VWChar 0x110000]))
       (CArray (CSimple c_wchar) 2)
     = Raise ValueError.
Proof.
  split; [|split]; [|discriminate|reflexivity].
  eexists; split; reflexivity.
Qed.

(** C5, as the code has it: under an array descriptor whose elements are not
    the character descriptor, a conforming buffer is read item by item, as
    indexing reads it, in the buffer's order.  When every item can be read
    the result is the list of what was read, in that order; when an item
    cannot be read (a wide character above the last code point) decoding
    raises [ValueError].  Three integers 1, 2, 3 decode to the list
    [1, 2, 3]. *)
Theorem decode_array (b : pyval) (e : ctype) (n : nat) :
  conforms b (CArray e n) -> e <> PLCTYPE_STRING ->
  (exists items,
      b = PObj (VArray e items) /\ length items = n /\
      ((exists vs,
           get_value_from_ctype_data b (CArray e n) = Return (PList vs)
           /\ Forall2 (fun d v => unbox d = Return v) items vs)
       \/ (get_value_from_ctype_data b (CArray e n) = Raise ValueError
           /\ Exists (fun d => unbox d = Raise ValueError) items)))
  /\ (forall k, e = CSimple (Int k) ->
        b = PObj (VArray e [VInt k 1; VInt k 2; VInt k 3]) ->
        get_value_from_ctype_data b (CArray e n)
          = Return (PList [PNative (NInt 1); PNative (NInt 2);
                           PNative (NInt 3)])).
Proof.
  intros (d & -> & Hd) He.
  assert (Hs : type_is_string (CArray e n) = false)
    by (rewrite type_is_string_unfold; by apply bool_decide_eq_false_2).
  split.
  - destruct d as [| | | | |e' items|]; try discriminate.
    injection Hd as -> Hn. exists items. split; [done|]. split; [done|].
    rewrite decode_dispatch, Hs by done. cbn [is_array iterate].
    destruct (read_all_spec items) as [(vs & -> & Hvs)|(-> & Hex)].
    + left. by exists vs.
    + by right.
  - intros k -> [= ->]. by rewrite decode_dispatch, Hs by done.
Qed.

Lemma decode_array_witness :
  get_value_from_ctype_data
    (PObj (VArray (CSimple (Int c_int32))
             [VInt c_int32 1; VInt c_int32 2; VInt c_int32 3]))
    (CArray (CSimple (Int c_int32)) 3)
  = Return (PList [PNative (NInt 1); PNative (NInt 2); PNative (NInt 3)]).
Proof.
  refine (proj2 (decode_array
            (PObj (VArray (CSimple (Int c_int32))
                     [VInt c_int32 1; VInt c_int32 2; VInt c_int32 3]))
            (CSimple (Int c_int32)) 3 _ _) c_int32 eq_refl eq_refl).
  - eexists; split; reflexivity.
  - discriminate.
Defined.

End ValueCodec.

Section Decoding.

Import Byte.

Lemma is_none_or_not (b : pyval) : b = PNone \/ b <> PNone.
Proof. destruct b; [by left|right..]; discriminate. Qed.









(** The [value] of an instance of a string type is a bytes object. *)
Lemma string_instance_payload (d : cdata) :
  type_is_string (type_of d) = true ->
  exists payload, cdata_getattr d "value" = Return (PNative (NBytes payload)).
Proof.
  rewrite type_is_string_unfold.
  destruct d as [b| | |t z|t x|e items|]; cbn; try discriminate.
  - by exists [b].
  - rewrite bool_decide_eq_true. unfold PLCTYPE_STRING, array_value.
    intros ->. rewrite decide_True by done. eauto.
Qed.

(** C4, as the code has it: under a string descriptor a conforming buffer
    has a bytes payload (for an array, the bytes before the first NUL); the
    result is that payload put through the UTF-8 decoder: one string when
    the payload is well-formed UTF-8, the decoder's error when it is not;
    in no case a list of single characters. *)
Theorem decode_string (b : pyval) (t : ctype) :
  conforms b t -> type_is_string t = true ->
  exists payload,
    getattr b "value" = Return (PNative (NBytes payload))
    /\ get_value_from_ctype_data b t =
         match Utf8.decode payload with
         | Some s => Return (PNative (NStr s))
         | None => Raise UnicodeDecodeError
         end
    /\ forall l, get_value_from_ctype_data b t <> Return (PList l).
Proof.
  intros (d & -> & <-) Hs.
  destruct (string_instance_payload d Hs) as [payload Hp].
  exists payload. split; [exact Hp|].
  rewrite decode_dispatch, Hs by done. cbn. rewrite Hp. cbn.
  split; [done|]. by destruct (Utf8.decode payload).
Qed.

Lemma decode_string_witness :
  get_value_from_ctype_data
    (PObj (VArray (CSimple c_char)
             [VChar x48; VChar xc3; VChar xa9; VChar x00; VChar x41]))
    (CArray (CSimple c_char) 5)
  <> Return (PList [PNative (NBytes [x48])]).
Proof.
  destruct (decode_string
              (PObj (VArray (CSimple c_char)
                       [VChar x48; VChar xc3; VChar xa9; VChar x00; VChar x41]))
              (CArray (CSimple c_char) 5)) as (payload & _ & _ & H).
  - eexists; split; reflexivity.
  - reflexivity.
  - apply H.
Defined.

(** A character buffer holding the single byte E9 (Latin-1 for an accented
    e) conforms to the string descriptor, and decoding it raises. *)
Lemma decode_string_not_utf8 :
  conforms (PObj (VChar xe9)) PLCTYPE_STRING
  /\ type_is_string PLCTYPE_STRING = true
  /\ get_value_from_ctype_data (PObj (VChar xe9)) PLCTYPE_STRING
     = Raise UnicodeDecodeError.
Proof.
  split; [|split]; [|reflexivity|reflexivity].
  eexists; split; reflexivity.
Qed.




End Decoding.

(** ** The UTF-8 decoder on known inputs *)

Section Utf8Examples.

Import Byte.

(** One, two, three and four byte forms: H, e-acute, the euro sign, and a
    code point beyond the basic plane. *)
Example utf8_all_lengths :
  Utf8.decode [x48; xc3; xa9; xe2; x82; xac; xf0; x9f; x98; x80]
  = Some [0x48; 0xE9; 0x20AC; 0x1F600]%N.
Proof. reflexivity. Qed.

(** Rejected: a byte that starts no sequence, a sequence cut short, an
    overlong form, a surrogate, a value above U+10FFFF. *)
Example utf8_rejects :
  Utf8.decode [xff] = None
  /\ Utf8.decode [xe2; x82] = None
  /\ Utf8.decode [xc0; x80] = None
  /\ Utf8.decode [xed; xa0; x80] = None
  /\ Utf8.decode [xf4; x90; x80; x80] = None.
Proof. repeat split; reflexivity. Qed.

(** ASCII text decodes to itself. *)
Lemma utf8_ascii (bs : list byte) :
  Forall (fun b => (Byte.to_N b < 0x80)%N) bs ->
  Utf8.decode bs = Some (Byte.to_N <$> bs).
Proof.
  induction 1 as [|b bs Hb _ IH]; [reflexivity|].
  assert (Hr : Utf8.in_range 0x00 0x7F b = true).
  { unfold Utf8.in_range. apply andb_true_intro.
    split; apply N.leb_le; lia. }
  cbn [Utf8.decode]. by rewrite Hr, IH.
Qed.

End Utf8Examples.

(** ** The datagram exchange *)

Section DatagramExchange.

Import Udp.

Variable out : outside.
Variable PORT_REMOTE_UDP : Z.

Lemma fresh_fd_closed (w : world) : open w !! fresh (dom (open w)) = None.
Proof. apply not_elem_of_dom, is_fresh. Qed.

Lemma body_spec (ip : string) (msg : list byte) (n : nat) (w : world) :
  let fd := fresh (dom (open w)) in
  let r :=
    seq (sock_bind out fd (""%string, 0)) (fun _ =>
    seq (sock_sendto out fd msg (ip, PORT_REMOTE_UDP)) (fun _ =>
    seq (sock_settimeout fd (Some 5)) (fun _ =>
    sock_recvfrom out fd n))) (acquired w) in
  body_post w fd (fst r) (snd r).
Proof.
  intros fd r. subst r. pose proof (fresh_fd_closed w) as Hfd. fold fd in Hfd.
  unfold body_post, acquired, seq, sock_bind, sock_sendto, sock_settimeout,
    sock_recvfrom, log, update. fold fd. cbn [open trace fst snd].
  rewrite lookup_insert_eq.
  destruct (on_bind out _) as [e|]; cbn [open trace fst snd].
  { split; [done|]. split; [by rewrite delete_insert_eq, delete_id|].
    exists []. split; [done|constructor]. }
  rewrite lookup_insert_eq.
  destruct (on_sendto out _) as [e|]; cbn [open trace fst snd].
  { split; [done|].
    split; [by rewrite !delete_insert_eq, delete_id|].
    eexists [_]. split; [by rewrite <- ?app_assoc|].
    repeat constructor. }
  rewrite lookup_insert_eq. cbn [open trace fst snd sk_timeout].
  rewrite lookup_insert_eq. cbn [sk_timeout].
  destruct (on_recvfrom out _) as [data sender| |e]; cbn [open trace fst snd].
  all: split; [done|].
  all: split; [by rewrite !delete_insert_eq, delete_id|].
  all: eexists [_; _; _; _]; split; [by rewrite <- ?app_assoc|].
  all: repeat constructor.
Qed.

(** C9: a call opens one datagram socket, under a descriptor that was not
    open before, and has closed it when it ends, whether it returns,
    times out or fails otherwise: the table of open sockets is what it was
    before the call.  (When [socket()] itself fails there is nothing to
    release and nothing has happened.)  The call always ends. *)
Theorem exchange_releases_socket
    (ip : string) (msg : list byte) (n : nat) (w : world) :
  let r := send_raw_udp_message out PORT_REMOTE_UDP ip msg n w in
  open (snd r) = open w
  /\ leaked w (snd r) = ∅
  /\ fst r <> Block
  /\ match on_socket out (trace w) with
     | Some e => r = (Raise e, w)
     | None =>
         let fd := fresh (dom (open w)) in
         (fd ∉ dom (open w))
         /\ exists mid,
              trace (snd r) =
                trace w ++ EvSocket fd AF_INET SOCK_DGRAM :: mid ++ [EvClose fd]
              /\ Forall (on_fd fd) mid
     end.
Proof.
  intros r.
  assert (open (snd r) = open w
          /\ fst r <> Block
          /\ match on_socket out (trace w) with
             | Some e => r = (Raise e, w)
             | None =>
                 let fd := fresh (dom (open w)) in
                 (fd ∉ dom (open w))
                 /\ exists mid,
                      trace (snd r) =
                        trace w ++ EvSocket fd AF_INET SOCK_DGRAM
                                :: mid ++ [EvClose fd]
                      /\ Forall (on_fd fd) mid
             end) as (Ho & Hb & Ht).
  { subst r. unfold send_raw_udp_message, with_closing, socket.
    destruct (on_socket out (trace w)) as [e|]; [done|].
    pose proof (body_spec ip msg n w) as H. cbn zeta in H.
    fold (acquired w).
    destruct (seq _ _ (acquired w)) as [res w2].
    destruct H as (Hnb & Hopen & mid & Htr & Hmid). cbn [fst snd] in *.
    destruct res as [v|e|]; [| |done].
    all: cbn [sock_close log open trace fst snd].
    all: split; [done|]; split; [done|]; split; [apply is_fresh|].
    all: exists mid; split; [|done]; by rewrite Htr, <- app_assoc. }
  split; [done|]. split; [|done].
  unfold leaked. rewrite Ho. apply difference_diag_L.
Qed.

(** C8: when the local calls succeed and no datagram arrives, the call
    sets the receive deadline to 5 seconds, waits once, and ends with
    [TimeoutError]: the history shows one receive, under deadline 5, then
    the release of the socket. *)
Theorem exchange_times_out
    (ip : string) (msg : list byte) (n : nat) (w : world) :
  (forall h, on_socket out h = None) ->
  (forall h, on_bind out h = None) ->
  (forall h, on_sendto out h = None) ->
  (forall h, on_recvfrom out h = Silence) ->
  let fd := fresh (dom (open w)) in
  send_raw_udp_message out PORT_REMOTE_UDP ip msg n w =
  (Raise TimeoutError,
   {| open := open w;
      trace := trace w ++
        [EvSocket fd AF_INET SOCK_DGRAM;
         EvBind fd (""%string, 0);
         EvSendto fd msg (ip, PORT_REMOTE_UDP);
         EvSettimeout fd (Some 5);
         EvRecvfrom fd n (Some 5);
         EvClose fd] |}).
Proof.
  intros Hsock Hbind Hsend Hrecv fd.
  pose proof (fresh_fd_closed w) as Hfd. fold fd in Hfd.
  unfold send_raw_udp_message, with_closing, socket, seq, sock_bind,
    sock_sendto, sock_settimeout, sock_recvfrom, sock_close, log, update.
  fold fd. rewrite Hsock. cbn [open trace fst snd].
  rewrite lookup_insert_eq, Hbind. cbn [open trace fst snd].
  rewrite lookup_insert_eq, Hsend. cbn [open trace fst snd].
  rewrite lookup_insert_eq. cbn [open trace fst snd sk_timeout].
  rewrite lookup_insert_eq, Hrecv. cbn [open trace fst snd sk_timeout].
  f_equal. f_equal.
  - by rewrite !delete_insert_eq, delete_id.
  - by rewrite <- ?app_assoc.
Qed.

End DatagramExchange.

Lemma exchange_times_out_witness :
  fst (Udp.send_raw_udp_message silent_host 48899 "192.168.0.10"
         [Byte.x03; Byte.x66] 398 no_sockets)
  = Raise TimeoutError.
Proof.
  rewrite (exchange_times_out silent_host 48899 "192.168.0.10"
             [Byte.x03; Byte.x66] 398 no_sockets); reflexivity.
Defined.

(** Without a deadline the same receive would wait forever. *)
Example recvfrom_blocks_without_deadline :
  fst (Udp.seq (Udp.socket silent_host Udp.AF_INET Udp.SOCK_DGRAM)
         (fun sock => Udp.sock_recvfrom silent_host sock 398) no_sockets)
  = Block.
Proof. reflexivity. Qed.

(** * Further properties *)

(** ** The error class, continued *)

Section ErrorText.

Variable ERROR_CODES : gmap Z string.

Import ADSError.

Lemma append_cons (a : Ascii.ascii) (s t : string) :
  String a s +:+ t = String a (s +:+ t).
Proof. reflexivity. Qed.

Lemma append_empty_r (s : string) : s +:+ "" = s.
Proof.
  induction s as [|a s IH]; [reflexivity|]. by rewrite append_cons, IH.
Qed.

Lemma append_assoc (s t u : string) : (s +:+ t) +:+ u = s +:+ t +:+ u.
Proof.
  induction s as [|a s IH]; [reflexivity|]. by rewrite !append_cons, IH.
Qed.

Lemma append_length (s t : string) :
  String.length (s +:+ t) = (String.length s + String.length t)%nat.
Proof.
  induction s as [|a s IH]; [reflexivity|].
  rewrite append_cons. cbn [String.length]. by rewrite IH.
Qed.

Lemma append_cancel_r (s1 s2 t : string) : s1 +:+ t = s2 +:+ t -> s1 = s2.
Proof.
  revert s2. induction s1 as [|a s1 IH]; intros [|b s2] H.
  - reflexivity.
  - change (t = String b (s2 +:+ t)) in H.
    apply (f_equal String.length) in H. cbn [String.length] in H.
    rewrite append_length in H. lia.
  - change (String a (s1 +:+ t) = t) in H.
    apply (f_equal String.length) in H. cbn [String.length] in H.
    rewrite append_length in H. lia.
  - rewrite !append_cons in H. injection H as -> H. f_equal. by apply IH.
Qed.

Lemma append_cancel_l (t s1 s2 : string) : t +:+ s1 = t +:+ s2 -> s1 = s2.
Proof.
  induction t as [|a t IH]; [done|].
  rewrite !append_cons. intros [= H]. by apply IH.
Qed.

(** X1: the text of an error never fails to render: it is the tag
    [ADSError: ] followed by the message built from the code and text. *)
Theorem error_text_rendering (code : option Z) (text : option string) :
  error_text ERROR_CODES code text =
  Return ("ADSError: " +:+
          match code, text with
          | Some c, Some t => code_message ERROR_CODES c +:+ t
          | Some c, None => code_message ERROR_CODES c
          | None, Some t => t
          | None, None => ""
          end).
Proof.
  unfold error_text. destruct code as [c|].
  - rewrite new_with_code. cbn. unfold __str__, getattr.
    rewrite lookup_insert_eq. by destruct text.
  - rewrite new_without_code. cbn. unfold __str__, getattr.
    rewrite lookup_insert_eq. by destruct text.
Qed.

(** X2: an empty text is the same as no text: [__init__] leaves the same
    attributes, with the same values. *)
Theorem empty_text_is_no_text (code : option Z) :
  new ERROR_CODES code (Some "") = new ERROR_CODES code None.
Proof.
  destruct code as [c|].
  - rewrite !new_with_code. cbv beta iota. by rewrite append_empty_r.
  - by rewrite !new_without_code.
Qed.

(** X3: [__init__] sets the attribute [msg], the attribute [err_code] when a
    code was given, and no other attribute. *)
Theorem error_attributes (code : option Z) (text : option string) :
  exists self,
    new ERROR_CODES code text = Return self
    /\ dom self = match code with
                  | Some _ => {["err_code"; "msg"]}
                  | None => {["msg"]}
                  end.
Proof.
  destruct code as [c|].
  - eexists; split; [apply new_with_code|].
    rewrite !dom_insert_L, dom_empty_L. set_solver.
  - eexists; split; [apply new_without_code|].
    rewrite !dom_insert_L, dom_empty_L. set_solver.
Qed.

(** X4: two codes that the table does not know never render alike, with
    the same text or none. *)
Theorem unknown_codes_render_apart (c c' : Z) (text : option string) :
  ERROR_CODES !! c = None -> ERROR_CODES !! c' = None ->
  error_text ERROR_CODES (Some c) text = error_text ERROR_CODES (Some c') text ->
  c = c'.
Proof.
  intros Hc Hc'. unfold error_text. rewrite !new_with_code. cbn.
  unfold __str__, getattr. rewrite !lookup_insert_eq. cbn.
  unfold code_message. rewrite Hc, Hc'. intros [= H]. apply (inj pretty).
  apply append_cancel_l in H.
  destruct text as [t|].
  - rewrite !append_assoc in H. apply append_cancel_l in H.
    by apply append_cancel_r in H.
  - apply append_cancel_l in H. by apply append_cancel_r in H.
Qed.

End ErrorText.

Lemma unknown_codes_render_apart_witness : (1861 : Z) = 1861.
Proof.
  apply (unknown_codes_render_apart ∅ 1861 1861 (Some "timeout"%string));
    reflexivity.
Defined.

(** ** The value codec, continued *)

Section CodecFurther.

Import Byte.

Lemma not_string_element (e : ctype) (n : nat) :
  e <> PLCTYPE_STRING -> type_is_string (CArray e n) = false.
Proof.
  intros He. rewrite type_is_string_unfold. by apply bool_decide_eq_false_2.
Qed.

(** X5: the descriptor is consulted for its kind only (string type, other
    array, or neither): two descriptors of the same kind give the same
    result on every buffer, whatever their element type and length. *)
Theorem decode_descriptor_kind (b : pyval) (t t' : ctype) :
  type_is_string t = type_is_string t' ->
  is_array t = is_array t' ->
  get_value_from_ctype_data b t = get_value_from_ctype_data b t'.
Proof.
  intros Hs Ha. destruct (is_none_or_not b) as [->|Hb]; [reflexivity|].
  by rewrite !decode_dispatch, Hs, Ha.
Qed.

Lemma decode_descriptor_kind_witness :
  get_value_from_ctype_data (PObj (char_buffer [x41; x42; x00]))
    (CArray PLCTYPE_STRING 3)
  = get_value_from_ctype_data (PObj (char_buffer [x41; x42; x00]))
      (CArray PLCTYPE_STRING 81).
Proof.
  apply (decode_descriptor_kind (PObj (char_buffer [x41; x42; x00]))
           (CArray PLCTYPE_STRING 3) (CArray PLCTYPE_STRING 81));
    reflexivity.
Defined.

Lemma unbox_composite (e : ctype) (d : cdata) :
  is_simple e = false -> type_of d = e -> unbox d = Return (PObj d).
Proof. intros He <-. by destruct d. Qed.

(** X6: elements are not decoded in depth.  Under an array descriptor whose
    elements are themselves arrays or structures (an array of strings, a
    matrix), the result lists the element objects of the buffer as they are:
    an array of strings does not decode to a list of strings. *)
Theorem decode_array_of_composites (e : ctype) (items : list cdata) :
  is_simple e = false ->
  Forall (fun d => type_of d = e) items ->
  get_value_from_ctype_data (PObj (VArray e items)) (CArray e (length items))
  = Return (PList (PObj <$> items)).
Proof.
  intros He Hitems.
  rewrite decode_dispatch, not_string_element by (try done; by intros ->).
  cbn [is_array iterate].
  assert (read_all items = Return (PObj <$> items)) as ->; [|done].
  induction Hitems as [|d items Hd _ IH]; [reflexivity|].
  cbn [read_all]. by rewrite (unbox_composite e d), IH.
Qed.

Lemma decode_array_of_composites_witness :
  get_value_from_ctype_data
    (PObj (VArray (CArray PLCTYPE_STRING 2)
             [char_buffer [x4f; x4b]; char_buffer [x6e; x6f]]))
    (CArray (CArray PLCTYPE_STRING 2) 2)
  = Return (PList [PObj (char_buffer [x4f; x4b]);
                   PObj (char_buffer [x6e; x6f])]).
Proof.
  apply (decode_array_of_composites (CArray PLCTYPE_STRING 2)
           [char_buffer [x4f; x4b]; char_buffer [x6e; x6f]]).
  - reflexivity.
  - repeat constructor.
Defined.

Lemma read_all_wide (cs : list N) :
  Forall (fun c => (c <= MAX_UNICODE)%N) cs ->
  read_all (VWChar <$> cs) = Return ((fun c => PNative (NStr [c])) <$> cs).
Proof.
  induction 1 as [|c cs Hc _ IH]; [reflexivity|].
  cbn [fmap list_fmap read_all unbox]. rewrite IH.
  by replace (c <=? MAX_UNICODE)%N with true by (symmetry; by apply N.leb_le).
Qed.

Lemma read_all_wide_fails (cs : list N) :
  Exists (fun c => (MAX_UNICODE < c)%N) cs ->
  read_all (VWChar <$> cs) = Raise ValueError.
Proof.
  induction 1 as [c cs Hc|c cs _ IH].
  - cbn [fmap list_fmap read_all unbox].
    by replace (c <=? MAX_UNICODE)%N with false
      by (symmetry; by apply N.leb_gt).
  - cbn [fmap list_fmap read_all unbox]. rewrite IH.
    by destruct (c <=? MAX_UNICODE)%N.
Qed.

(** X7: a wide-character buffer is not a string to the codec.  Under its own
    descriptor, a buffer whose units are all code points decodes to the list
    of its characters, each a string of length one, the NULs and what
    follows them included; a buffer with a unit above the last code point
    does not decode: [ValueError] is raised. *)
Theorem decode_wide_characters (cs : list N) :
  (Forall (fun c => (c <= MAX_UNICODE)%N) cs ->
   get_value_from_ctype_data (PObj (wchar_buffer cs))
     (type_of (wchar_buffer cs))
   = Return (PList ((fun c => PNative (NStr [c])) <$> cs)))
  /\ (Exists (fun c => (MAX_UNICODE < c)%N) cs ->
      get_value_from_ctype_data (PObj (wchar_buffer cs))
        (type_of (wchar_buffer cs))
      = Raise ValueError).
Proof.
  unfold wchar_buffer. cbn [type_of].
  rewrite decode_dispatch, not_string_element by done.
  cbn [is_array iterate]. split; intros H.
  - by rewrite read_all_wide.
  - by rewrite read_all_wide_fails.
Qed.

Lemma decode_wide_characters_witness :
  get_value_from_ctype_data (PObj (wchar_buffer [0x4F; 0; 0x4B]%N))
    (type_of (wchar_buffer [0x4F; 0; 0x4B]%N))
  = Return (PList [PNative (NStr [0x4F%N]); PNative (NStr [0%N]);
                   PNative (NStr [0x4B%N])]).
Proof.
  apply (decode_wide_characters [0x4F; 0; 0x4B]%N).
  repeat constructor; by apply N.leb_le.
Defined.

Lemma chars_of_buffer (raw : list byte) : omap char_of (VChar <$> raw) = raw.
Proof. induction raw as [|b raw IH]; [reflexivity|]. cbn. by rewrite IH. Qed.

Lemma char_buffer_decode (raw : list byte) :
  get_value_from_ctype_data (PObj (char_buffer raw)) (type_of (char_buffer raw))
  = call_decode (PNative (NBytes
      (until_nul (fun b => N.eqb (Byte.to_N b) 0) raw))).
Proof.
  unfold char_buffer. cbn [type_of].
  rewrite decode_dispatch by done.
  replace (type_is_string (CArray (CSimple c_char) (length (VChar <$> raw))))
    with true by (symmetry; by rewrite type_is_string_unfold).
  cbn -[call_decode]. unfold array_value.
  rewrite decide_True by done. cbn -[call_decode]. by rewrite chars_of_buffer.
Qed.

Lemma until_nul_stops {A} (is_nul : A -> bool) (pre : list A) (x : A)
    (post : list A) :
  is_nul x = true ->
  until_nul is_nul (pre ++ x :: post) = until_nul is_nul pre.
Proof.
  intros Hx. induction pre as [|y pre IH]; cbn.
  - by rewrite Hx.
  - destruct (is_nul y); [done|]. by rewrite IH.
Qed.

Lemma until_nul_all {A} (is_nul : A -> bool) (l : list A) :
  Forall (fun x => is_nul x = false) l -> until_nul is_nul l = l.
Proof.
  induction 1 as [|x l Hx _ IH]; [reflexivity|]. cbn. by rewrite Hx, IH.
Qed.

(** X8: what follows the first NUL of a character buffer has no part in the
    result: two buffers that agree up to their first NUL decode alike, be
    the rest padding, stale data or bytes that are not UTF-8. *)
Theorem decode_ignores_after_nul (pre post post' : list byte) :
  get_value_from_ctype_data (PObj (char_buffer (pre ++ x00 :: post)))
    (type_of (char_buffer (pre ++ x00 :: post)))
  = get_value_from_ctype_data (PObj (char_buffer (pre ++ x00 :: post')))
      (type_of (char_buffer (pre ++ x00 :: post'))).
Proof.
  rewrite !char_buffer_decode. by rewrite !until_nul_stops.
Qed.

(** X9: ASCII text in a character buffer decodes to itself: a text of
    non-NUL bytes below 128, followed by nothing or by a NUL and anything,
    gives the string with exactly these characters. *)
Theorem decode_ascii_text (text rest : list byte) :
  Forall (fun b => (0 < Byte.to_N b < 0x80)%N) text ->
  rest = [] \/ head rest = Some x00 ->
  get_value_from_ctype_data (PObj (char_buffer (text ++ rest)))
    (type_of (char_buffer (text ++ rest)))
  = Return (PNative (NStr (Byte.to_N <$> text))).
Proof.
  intros Htext Hrest. rewrite char_buffer_decode.
  assert (until_nul (fun b => N.eqb (Byte.to_N b) 0) (text ++ rest) = text)
    as ->.
  { assert (Hall : until_nul (fun b => N.eqb (Byte.to_N b) 0) text = text).
    { apply until_nul_all. eapply Forall_impl; [exact Htext|].
      intros b Hb. cbv beta in Hb. apply N.eqb_neq. lia. }
    destruct Hrest as [->|Hrest].
    - by rewrite app_nil_r.
    - destruct rest as [|r rest]; [discriminate|]. injection Hrest as ->.
      by rewrite until_nul_stops. }
  cbn. rewrite utf8_ascii; [done|].
  eapply Forall_impl; [exact Htext|]. intros b Hb. cbv beta in Hb. lia.
Qed.

Lemma decode_ascii_text_witness :
  get_value_from_ctype_data
    (PObj (char_buffer ([x50; x4c; x43] ++ [x00; xff; x00])))
    (type_of (char_buffer ([x50; x4c; x43] ++ [x00; xff; x00])))
  = Return (PNative (NStr [0x50; 0x4C; 0x43]%N)).
Proof.
  apply (decode_ascii_text [x50; x4c; x43] [x00; xff; x00]).
  - repeat constructor.
  - right. reflexivity.
Defined.

(** X10: a string descriptor over a buffer without text fails: when the
    buffer is an instance of a numeric simple type, or of an array whose
    elements are not of a character type, decoding raises [AttributeError]
    (the buffer has no [value], or its [value] is a number, which has no
    [decode]). *)
Theorem decode_string_mismatch (b : pyval) (t t' : ctype) :
  type_is_string t = true ->
  conforms b t' -> no_text t' = true ->
  get_value_from_ctype_data b t = Raise AttributeError.
Proof.
  intros Ht (d & -> & <-) Hd.
  rewrite decode_dispatch, Ht by done.
  destruct d as [c|c|x|k z|k x|e items|name attrs]; try discriminate;
    try reflexivity.
  cbn in Hd. apply andb_prop in Hd as [Hc Hw].
  apply bool_decide_eq_true in Hc, Hw.
  cbn. unfold array_value. by rewrite !decide_False by done.
Qed.

Lemma decode_string_mismatch_witness :
  get_value_from_ctype_data (PObj (VInt c_int16 7)) (CArray PLCTYPE_STRING 81)
  = Raise AttributeError.
Proof.
  apply (decode_string_mismatch (PObj (VInt c_int16 7))
           (CArray PLCTYPE_STRING 81) (CSimple (Int c_int16)));
    [reflexivity| |reflexivity].
  eexists; split; reflexivity.
Defined.

(** X11: an array descriptor over a buffer that is not an array fails: when
    the descriptor is an array that is not a string type and the buffer is
    an instance of a simple type or of a structure, decoding raises
    [TypeError] (the buffer cannot be iterated). *)
Theorem decode_array_mismatch (b : pyval) (t t' : ctype) :
  type_is_string t = false -> is_array t = true ->
  conforms b t' -> is_array t' = false ->
  get_value_from_ctype_data b t = Raise TypeError.
Proof.
  intros Hs Ha (d & -> & <-) Hd.
  rewrite decode_dispatch, Hs, Ha by done.
  by destruct d.
Qed.

Lemma decode_array_mismatch_witness :
  get_value_from_ctype_data (PObj (VFloat c_double 0))
    (CArray (CSimple (Float c_double)) 4)
  = Raise TypeError.
Proof.
  apply (decode_array_mismatch (PObj (VFloat c_double 0))
           (CArray (CSimple (Float c_double)) 4) (CSimple (Float c_double)));
    [reflexivity|reflexivity| |reflexivity].
  eexists; split; reflexivity.
Defined.

(** X12: decoding a scalar twice is decoding it once: under a descriptor
    that is neither a string type nor an array, an instance of a simple type
    whose value can be read decodes to that value, and that value decodes to
    itself. *)
Theorem decode_scalar_twice (b : pyval) (s : simple) (t : ctype) (v : pyval) :
  conforms b (CSimple s) ->
  type_is_string t = false -> is_array t = false ->
  getattr b "value" = Return v ->
  get_value_from_ctype_data b t = Return v
  /\ get_value_from_ctype_data v t = Return v.
Proof.
  intros (d & -> & Hd) Hs Ha Hv.
  assert (Hn : exists n, v = PNative n).
  { destruct d as [c|c|x|k z|k x|e items|name attrs]; try discriminate;
      cbn in Hv; try (injection Hv as <-; by eexists).
    destruct (c <=? MAX_UNICODE)%N; [|discriminate].
    injection Hv as <-. by eexists. }
  destruct Hn as [n ->]. split.
  - rewrite decode_dispatch, Hs, Ha by done. unfold hasattr. by rewrite Hv.
  - by rewrite decode_dispatch, Hs, Ha by done.
Qed.

Lemma decode_scalar_twice_witness :
  get_value_from_ctype_data (PObj (VBool true)) (CSimple c_bool)
    = Return (PNative (NBool true))
  /\ get_value_from_ctype_data (PNative (NBool true)) (CSimple c_bool)
     = Return (PNative (NBool true)).
Proof.
  apply (decode_scalar_twice (PObj (VBool true)) c_bool (CSimple c_bool));
    [|reflexivity..].
  eexists; split; reflexivity.
Defined.

(** X13: a structure decodes to itself unless [value] is among its
    attributes: then the test for a scalar accessor reads it, and the result
    is what reading it gives, the value or the exception, not the structure
    (an [AttributeError] raised by the read counts as no attribute). *)
Theorem decode_structure
    (name : string) (attrs : list (string * outcome pyval)) :
  get_value_from_ctype_data (PObj (VStruct name attrs)) (CStruct name)
  = match attribute "value" attrs with
    | Some (Got v) => Return v
    | Some (Fails e) =>
        if decide (e = AttributeError)
        then Return (PObj (VStruct name attrs))
        else Raise e
    | None => Return (PObj (VStruct name attrs))
    end.
Proof.
  rewrite decode_dispatch by done. cbn. unfold hasattr. cbn.
  destruct (attribute "value" attrs) as [[v|e]|]; cbn; [done| |done].
  by case_decide.
Qed.

Lemma unbox_readable (d : cdata) :
  code_unit_ok d -> exists v, unbox d = Return v.
Proof.
  destruct d; cbn; eauto. intros Hc.
  replace (c <=? MAX_UNICODE)%N with true by (symmetry; by apply N.leb_le).
  eauto.
Qed.

Lemma unbox_unreadable (d : cdata) :
  ~ code_unit_ok d -> unbox d = Raise ValueError.
Proof.
  destruct d; cbn; try done. intros Hc.
  by replace (c <=? MAX_UNICODE)%N with false
    by (symmetry; apply N.leb_gt; lia).
Qed.

Lemma read_all_readable (items : list cdata) :
  (Forall code_unit_ok items -> returns (read_all items))
  /\ (~ Forall code_unit_ok items -> read_all items = Raise ValueError).
Proof.
  destruct (read_all_spec items) as [(vs & Hvs & Hall)|(Hr & Hex)].
  - split; [intros _; by exists vs|]. intros Hnot. destruct Hnot.
    clear Hvs. induction Hall as [|d v items vs Hd _ IH]; [constructor|].
    constructor; [|done].
    destruct d; cbn in *; try done.
    apply N.leb_le. by destruct (c <=? MAX_UNICODE)%N.
  - split; [|done]. intros Hall. exfalso. clear Hr.
    induction Hex as [d items Hd|d items _ IH].
    + apply Forall_cons in Hall as [Hok _].
      destruct (unbox_readable d Hok) as [v Hv]. congruence.
    + apply Forall_cons in Hall as [_ Hall]. by apply IH.
Qed.

(** X14: under its own descriptor, an instance of a simple type or of an
    array type that is not a string type fails to decode only when a wide
    character in it is not a code point: it decodes to a value when every
    wide character read is at most the last code point, and raises
    [ValueError] otherwise. *)
Theorem decode_own_descriptor (d : cdata) :
  type_is_string (type_of d) = false ->
  is_struct (type_of d) = false ->
  (readable d -> returns (get_value_from_ctype_data (PObj d) (type_of d)))
  /\ (~ readable d ->
      get_value_from_ctype_data (PObj d) (type_of d) = Raise ValueError).
Proof.
  intros Hs Hst. rewrite decode_dispatch, Hs by done.
  destruct d as [c|c|x|k z|k x|e items|name attrs]; try discriminate;
    cbn [type_of is_array readable code_unit_ok].
  2,3,4: split; [intros _; cbn; by eexists|intros H; by destruct H].
  - unfold hasattr. cbn [getattr cdata_getattr String.eqb Ascii.eqb
                         Bool.eqb unbox].
    split; intros Hc.
    + replace (c <=? MAX_UNICODE)%N with true
        by (symmetry; by apply N.leb_le).
      by eexists.
    + by replace (c <=? MAX_UNICODE)%N with false
        by (symmetry; apply N.leb_gt; lia).
  - cbn [iterate]. destruct (read_all_readable items) as [Hok Hbad].
    split; intros H.
    + destruct (Hok H) as [vs ->]. by eexists.
    + by rewrite (Hbad H).
Qed.

Lemma decode_own_descriptor_witness :
  returns (get_value_from_ctype_data
             (PObj (VArray (CSimple (Int c_uint8)) [VInt c_uint8 255]))
             (CArray (CSimple (Int c_uint8)) 1)).
Proof.
  apply (decode_own_descriptor
           (VArray (CSimple (Int c_uint8)) [VInt c_uint8 255]));
    [reflexivity|reflexivity|].
  repeat constructor.
Defined.

End CodecFurther.

(** ** The datagram exchange, continued *)

Section ExchangeFurther.

Import Udp.

Variable out : outside.
Variable PORT_REMOTE_UDP : Z.

(** Unfolds a call up to the answers of the outside. *)
Local Ltac run_exchange :=
  unfold send_raw_udp_message, with_closing, socket, seq, sock_bind,
    sock_sendto, sock_settimeout, sock_recvfrom, sock_close, log, update,
    body_calls;
  cbn [open trace fst snd sk_timeout].

Local Ltac same_world :=
  f_equal; f_equal;
  [ by rewrite ?delete_insert_eq, delete_id by apply fresh_fd_closed
  | by rewrite <- ?app_assoc ].

(** X15: when the local calls succeed and a datagram arrives, the call
    returns its payload, cut to the expected length, with the sender's
    address; the socket is closed again and the history is the six calls in
    order. *)
Theorem exchange_returns_reply
    (ip : string) (msg : list byte) (n : nat) (w : world)
    (data : list byte) (sender : address) :
  (forall h, on_socket out h = None) ->
  (forall h, on_bind out h = None) ->
  (forall h, on_sendto out h = None) ->
  (forall h, on_recvfrom out h = Datagram data sender) ->
  let fd := fresh (dom (open w)) in
  send_raw_udp_message out PORT_REMOTE_UDP ip msg n w =
    (Return (take n data, sender),
     {| open := open w;
        trace := trace w ++ EvSocket fd AF_INET SOCK_DGRAM
                         :: body_calls PORT_REMOTE_UDP fd ip msg n
                         ++ [EvClose fd] |})
  /\ (length (take n data) <= n)%nat.
Proof.
  intros Hsock Hbind Hsend Hrecv fd. split; [|rewrite length_take; lia].
  run_exchange. fold fd. rewrite Hsock. cbn [open trace fst snd].
  rewrite lookup_insert_eq, Hbind. cbn [open trace fst snd].
  rewrite lookup_insert_eq, Hsend. cbn [open trace fst snd].
  rewrite lookup_insert_eq. cbn [open trace fst snd sk_timeout].
  rewrite lookup_insert_eq, Hrecv. cbn [open trace fst snd sk_timeout].
  same_world.
Qed.

(** X16: a failure to bind is raised as it is, after the socket is closed:
    nothing is sent and nothing is waited for. *)
Theorem exchange_bind_failure
    (ip : string) (msg : list byte) (n : nat) (w : world) (e : exn) :
  (forall h, on_socket out h = None) ->
  (forall h, on_bind out h = Some e) ->
  let fd := fresh (dom (open w)) in
  send_raw_udp_message out PORT_REMOTE_UDP ip msg n w =
    (Raise e,
     {| open := open w;
        trace := trace w ++ [EvSocket fd AF_INET SOCK_DGRAM; EvClose fd] |}).
Proof.
  intros Hsock Hbind fd.
  run_exchange. fold fd. rewrite Hsock. cbn [open trace fst snd].
  rewrite lookup_insert_eq, Hbind. cbn [open trace fst snd].
  same_world.
Qed.

(** X17: a failure to send is raised as it is, after the socket is closed:
    no deadline is set and no receive is attempted. *)
Theorem exchange_send_failure
    (ip : string) (msg : list byte) (n : nat) (w : world) (e : exn) :
  (forall h, on_socket out h = None) ->
  (forall h, on_bind out h = None) ->
  (forall h, on_sendto out h = Some e) ->
  let fd := fresh (dom (open w)) in
  send_raw_udp_message out PORT_REMOTE_UDP ip msg n w =
    (Raise e,
     {| open := open w;
        trace := trace w ++ [EvSocket fd AF_INET SOCK_DGRAM;
                             EvBind fd (""%string, 0);
                             EvClose fd] |}).
Proof.
  intros Hsock Hbind Hsend fd.
  run_exchange. fold fd. rewrite Hsock. cbn [open trace fst snd].
  rewrite lookup_insert_eq, Hbind. cbn [open trace fst snd].
  rewrite lookup_insert_eq, Hsend. cbn [open trace fst snd].
  same_world.
Qed.

(** X18: an error of the receive other than the deadline is raised as it
    is, after the socket is closed; the call does not wait again. *)
Theorem exchange_receive_failure
    (ip : string) (msg : list byte) (n : nat) (w : world) (e : exn) :
  (forall h, on_socket out h = None) ->
  (forall h, on_bind out h = None) ->
  (forall h, on_sendto out h = None) ->
  (forall h, on_recvfrom out h = Fault e) ->
  let fd := fresh (dom (open w)) in
  send_raw_udp_message out PORT_REMOTE_UDP ip msg n w =
    (Raise e,
     {| open := open w;
        trace := trace w ++ EvSocket fd AF_INET SOCK_DGRAM
                         :: body_calls PORT_REMOTE_UDP fd ip msg n
                         ++ [EvClose fd] |}).
Proof.
  intros Hsock Hbind Hsend Hrecv fd.
  run_exchange. fold fd. rewrite Hsock. cbn [open trace fst snd].
  rewrite lookup_insert_eq, Hbind. cbn [open trace fst snd].
  rewrite lookup_insert_eq, Hsend. cbn [open trace fst snd].
  rewrite lookup_insert_eq. cbn [open trace fst snd sk_timeout].
  rewrite lookup_insert_eq, Hrecv. cbn [open trace fst snd sk_timeout].
  same_world.
Qed.

(** X19: whatever the outside does, the calls a single exchange makes are an
    initial part of bind to port 0 on all interfaces, sendto the remote port,
    settimeout(5), recvfrom, between the creation and the release of its
    socket, or none at all when no socket could be made: it never sends
    twice, never waits twice and never waits without the deadline. *)
Theorem exchange_history
    (ip : string) (msg : list byte) (n : nat) (w : world) :
  let fd := fresh (dom (open w)) in
  let w' := snd (send_raw_udp_message out PORT_REMOTE_UDP ip msg n w) in
  trace w' = trace w
  \/ exists k,
       trace w' = trace w ++ EvSocket fd AF_INET SOCK_DGRAM
                         :: take k (body_calls PORT_REMOTE_UDP fd ip msg n)
                         ++ [EvClose fd].
Proof.
  intros fd w'. subst w'.
  run_exchange. fold fd.
  destruct (on_socket out (trace w)) as [e|]; [by left|]. right.
  cbn [open trace fst snd]. rewrite lookup_insert_eq.
  destruct (on_bind out _) as [e|]; cbn [open trace fst snd].
  { exists 0%nat. by rewrite <- ?app_assoc. }
  rewrite lookup_insert_eq.
  destruct (on_sendto out _) as [e|]; cbn [open trace fst snd].
  { exists 1%nat. by rewrite <- ?app_assoc. }
  rewrite lookup_insert_eq. cbn [open trace fst snd sk_timeout].
  rewrite lookup_insert_eq. cbn [sk_timeout].
  exists 4%nat.
  destruct (on_recvfrom out _) as [data sender| |e]; cbn [open trace fst snd].
  all: by rewrite <- ?app_assoc.
Qed.

Lemma exchange_keeps_sockets
    (ip : string) (msg : list byte) (n : nat) (w : world) :
  open (snd (send_raw_udp_message out PORT_REMOTE_UDP ip msg n w)) = open w.
Proof.
  unfold send_raw_udp_message, with_closing, socket.
  destruct (on_socket out (trace w)) as [e|]; [done|].
  pose proof (body_spec out PORT_REMOTE_UDP ip msg n w) as H. cbn zeta in H.
  fold (acquired w).
  destruct (seq _ _ (acquired w)) as [res w2].
  destruct H as (Hnb & Hopen & _). cbn [fst snd] in *.
  by destruct res.
Qed.

(** X20: no socket is left behind by any number of exchanges made one after
    the other, whatever each of them ends with: the table of open sockets
    after the last is the table before the first. *)
Theorem exchange_all_keeps_sockets
    (requests : list (string * list byte * nat)) (w : world) :
  open (exchange_all out PORT_REMOTE_UDP requests w) = open w.
Proof.
  revert w. induction requests as [|[[ip msg] n] rest IH]; intros w.
  - reflexivity.
  - cbn [exchange_all]. by rewrite IH, exchange_keeps_sockets.
Qed.

End ExchangeFurther.

Lemma exchange_returns_reply_witness :
  fst (Udp.send_raw_udp_message
         (replying_host [Byte.x03; Byte.x66; Byte.x14; Byte.x71]
            ("192.168.0.10"%string, 48899))
         48899 "192.168.0.10" [Byte.x03; Byte.x66] 2 no_sockets)
  = Return ([Byte.x03; Byte.x66], ("192.168.0.10"%string, 48899)).
Proof.
  pose proof (exchange_returns_reply
                (replying_host [Byte.x03; Byte.x66; Byte.x14; Byte.x71]
                   ("192.168.0.10"%string, 48899))
                48899 "192.168.0.10" [Byte.x03; Byte.x66] 2 no_sockets
                [Byte.x03; Byte.x66; Byte.x14; Byte.x71]
                ("192.168.0.10"%string, 48899)
                (fun _ => eq_refl) (fun _ => eq_refl) (fun _ => eq_refl)
                (fun _ => eq_refl)) as [H _].
  by rewrite H.
Defined.

Lemma exchange_bind_failure_witness :
  fst (Udp.send_raw_udp_message no_free_port 48899 "192.168.0.10"
         [Byte.x03; Byte.x66] 398 no_sockets)
  = Raise OSError.
Proof.
  rewrite (exchange_bind_failure no_free_port 48899 "192.168.0.10"
             [Byte.x03; Byte.x66] 398 no_sockets OSError); reflexivity.
Defined.

Lemma exchange_send_failure_witness :
  fst (Udp.send_raw_udp_message unreachable_network 48899 "192.168.0.10"
         [Byte.x03; Byte.x66] 398 no_sockets)
  = Raise OSError.
Proof.
  rewrite (exchange_send_failure unreachable_network 48899 "192.168.0.10"
             [Byte.x03; Byte.x66] 398 no_sockets OSError); reflexivity.
Defined.

Lemma exchange_receive_failure_witness :
  fst (Udp.send_raw_udp_message failing_receive 48899 "192.168.0.10"
         [Byte.x03; Byte.x66] 398 no_sockets)
  = Raise OSError.
Proof.
  rewrite (exchange_receive_failure failing_receive 48899 "192.168.0.10"
             [Byte.x03; Byte.x66] 398 no_sockets OSError); reflexivity.
Defined.
